(** * core::parallel::DisjointIntIntervals

    A shallow embedding of
    [fastlib/trunk/contrib/dongryel/thesis_research/core/parallel/disjoint_int_intervals.h]
    and the properties of the disjoint interval registry checked against it.

    The class keeps a [std::map] from integer pairs to integer pairs, ordered
    by [ComparatorType].  Its member functions are [Merge_] (private),
    [Init] and [Insert].  The body of [Insert] is [return true;]: the
    equal_range / merge loop that follows is inside a comment and is not
    part of the program.

    Integers: the code only copies and compares [int] values (no arithmetic
    is performed on them), so an [int] is a [Z] and every statement below
    that holds for all [Z] holds for all 32-bit values.

    The second part embeds the member functions of
    [fastlib/trunk/contrib/dongryel/thesis_research/mlpack/kde/kde_dev.h];
    a [double] is a binary64 float with its IEEE comparisons. *)

From Stdlib Require Import String Floats NArith ZArith List Bool Lia.
Import ListNotations.
Open Scope Z_scope.

(** ** Data *)

(** [typedef std::pair<int, int> ValueType;]  [first] is the lower bound,
    [second] the upper bound. *)
Definition ValueType : Type := (Z * Z)%type.

(** [typedef ValueType KeyType;] *)
Definition KeyType : Type := ValueType.

Definition first (p : ValueType) : Z := fst p.
Definition second (p : ValueType) : Z := snd p.

(** The conversion C++ applies to an [int] returned from a function whose
    return type is [bool]: zero is [false], anything else is [true]. *)
Definition bool_of_int (z : Z) : bool := negb (z =? 0).

(** [ComparatorType::operator()].  Its return type is [bool]; the three
    [return] statements give [-1], [1] and [0]. *)
Definition ComparatorType (k1 k2 : KeyType) : bool :=
  bool_of_int
    (if second k1 <? first k2 then -1
     else if second k2 <? first k1 then 1
     else 0).

(** Two keys are equivalent for an ordered container when neither is
    ordered before the other. *)
Definition equivalent (k1 k2 : KeyType) : bool :=
  negb (ComparatorType k1 k2) && negb (ComparatorType k2 k1).

(** [typedef std::map<KeyType, ValueType, ComparatorType> MapType;]
    kept as the sequence of its entries in iteration order. *)
Definition MapType : Type := list (KeyType * ValueType).

(** The object: its only data member is [intervals_]. *)
Record DisjointIntIntervals : Type := mkRegistry { intervals_ : MapType }.

(** ** Member functions: state passing with a possible abort *)

(** What a call of a member function does: it returns a value and leaves the
    object in a new state, or it stops the program (a failed assertion). *)
Inductive outcome (A : Type) : Type :=
| Returns (a : A) (st : DisjointIntIntervals)
| Aborts.

Arguments Returns {A} a st.
Arguments Aborts {A}.

Definition M (A : Type) : Type := DisjointIntIntervals -> outcome A.

Definition ret {A : Type} (a : A) : M A := fun st => Returns a st.

Definition bind {A B : Type} (c : M A) (k : A -> M B) : M B :=
  fun st =>
    match c st with
    | Returns a st' => k a st'
    | Aborts => Aborts
    end.

Notation "x <- c ;; k" := (bind c (fun x => k))
  (at level 61, c at next level, right associativity).
Notation "c ;;; k" := (bind c (fun _ => k))
  (at level 61, right associativity).

(** [intervals_.clear()] *)
Definition clear : M unit := fun _ => Returns tt (mkRegistry []).

(** [void Merge_(const ValueType &combine_with, ValueType *merged)]:
    it reads and writes [*merged] only, so it is a function from the old
    [*merged] to the new one. *)
Definition Merge_ (combine_with : ValueType) (merged : ValueType) : ValueType :=
  if first merged =? second combine_with
  then (first combine_with, second merged)
  else (first merged, second combine_with).

(** [void Init()] *)
Definition Init : M unit := clear.

(** [bool Insert(const ValueType &test_interval)]: the body is
    [return true;]. *)
Definition Insert (test_interval : ValueType) : M bool := ret true.

(** A caller that claims the intervals of a list one after the other and
    collects the answers. *)
Fixpoint InsertAll (calls : list ValueType) : M (list bool) :=
  match calls with
  | [] => ret []
  | iv :: rest =>
      r <- Insert iv ;;
      rs <- InsertAll rest ;;
      ret (r :: rs)
  end.

(** ** Vocabulary of the properties *)

(** The caller's contract on an interval: [lo <= hi]. *)
Definition well_formed (iv : ValueType) : Prop := first iv <= second iv.

(** The stored intervals: the keys of the map. *)
Definition stored (st : DisjointIntIntervals) : list KeyType :=
  map fst (intervals_ st).

(** [x] lies in the closed interval [iv]. *)
Definition inside (x : Z) (iv : ValueType) : bool :=
  (first iv <=? x) && (x <=? second iv).

(** Coverage: [x] lies in one of the stored intervals. *)
Definition covered (st : DisjointIntIntervals) (x : Z) : bool :=
  existsb (inside x) (stored st).

(** [iv] is inside the stored interval [s]; the test of the docstring's
    "already available". *)
Definition contained_in (iv s : ValueType) : bool :=
  (first s <=? first iv) && (second iv <=? second s).

(** Two stored intervals are separated by at least one unclaimed integer. *)
Definition separated (a b : ValueType) : Prop :=
  second a < first b - 1 \/ second b < first a - 1.

Definition pairwise_separated (l : list KeyType) : Prop :=
  forall a b, In a l -> In b l -> a <> b -> separated a b.

(** The union of two bounds. *)
Definition hull (a b : ValueType) : ValueType :=
  (Z.min (first a) (first b), Z.max (second a) (second b)).


(** The registry of the multi-merge scenario. *)
Definition three_intervals : DisjointIntIntervals :=
  mkRegistry [((0, 2), (0, 2)); ((5, 7), (5, 7)); ((10, 12), (10, 12))].

(** * mlpack::kde::Kde<TableType>

    The member functions of [mlpack/kde/kde_dev.h].  The class declarations
    ([Kde], [KdeArguments], [KdeResult] in kde.h), the dual-tree engine, the
    table type and Boost's option parser are not part of these sources: the
    records below hold the fields kde_dev.h reads and writes, the table type
    is the interface [TableType], the calls made on the dual-tree engine and
    on [global_] are kept as a log of calls, and the option parser is an
    argument of the functions that use it.  Text written to the console is
    not modelled; a call of [exit] is, with the message that precedes it. *)

(** A [TableType *]: the address of a table object. *)
Definition TablePtr : Type := N.

Module KdeArguments.

(** The fields of [KdeArguments<TableType>] that kde_dev.h uses. *)
Record t : Type := mk {
  metric_ : N;
  densities_out_ : string;
  leaf_size_ : Z;
  reference_table_ : TablePtr;
  query_table_ : TablePtr;
  effective_num_reference_points_ : Z;
  bandwidth_ : float;
  relative_error_ : float;
  probability_ : float;
  kernel_ : string;
  normalize_densities_ : bool;
  num_iterations_in_ : Z
}.

(** Assignment to one field. *)
Definition set_metric_ (v : N) (a : t) : t :=
  mk v (densities_out_ a) (leaf_size_ a) (reference_table_ a)
     (query_table_ a) (effective_num_reference_points_ a) (bandwidth_ a)
     (relative_error_ a) (probability_ a) (kernel_ a)
     (normalize_densities_ a) (num_iterations_in_ a).

Definition set_densities_out_ (v : string) (a : t) : t :=
  mk (metric_ a) v (leaf_size_ a) (reference_table_ a) (query_table_ a)
     (effective_num_reference_points_ a) (bandwidth_ a) (relative_error_ a)
     (probability_ a) (kernel_ a) (normalize_densities_ a)
     (num_iterations_in_ a).

Definition set_leaf_size_ (v : Z) (a : t) : t :=
  mk (metric_ a) (densities_out_ a) v (reference_table_ a) (query_table_ a)
     (effective_num_reference_points_ a) (bandwidth_ a) (relative_error_ a)
     (probability_ a) (kernel_ a) (normalize_densities_ a)
     (num_iterations_in_ a).

Definition set_reference_table_ (v : TablePtr) (a : t) : t :=
  mk (metric_ a) (densities_out_ a) (leaf_size_ a) v (query_table_ a)
     (effective_num_reference_points_ a) (bandwidth_ a) (relative_error_ a)
     (probability_ a) (kernel_ a) (normalize_densities_ a)
     (num_iterations_in_ a).

Definition set_query_table_ (v : TablePtr) (a : t) : t :=
  mk (metric_ a) (densities_out_ a) (leaf_size_ a) (reference_table_ a) v
     (effective_num_reference_points_ a) (bandwidth_ a) (relative_error_ a)
     (probability_ a) (kernel_ a) (normalize_densities_ a)
     (num_iterations_in_ a).

Definition set_effective_num_reference_points_ (v : Z) (a : t) : t :=
  mk (metric_ a) (densities_out_ a) (leaf_size_ a) (reference_table_ a)
     (query_table_ a) v (bandwidth_ a) (relative_error_ a) (probability_ a)
     (kernel_ a) (normalize_densities_ a) (num_iterations_in_ a).

Definition set_bandwidth_ (v : float) (a : t) : t :=
  mk (metric_ a) (densities_out_ a) (leaf_size_ a) (reference_table_ a)
     (query_table_ a) (effective_num_reference_points_ a) v
     (relative_error_ a) (probability_ a) (kernel_ a)
     (normalize_densities_ a) (num_iterations_in_ a).

Definition set_relative_error_ (v : float) (a : t) : t :=
  mk (metric_ a) (densities_out_ a) (leaf_size_ a) (reference_table_ a)
     (query_table_ a) (effective_num_reference_points_ a) (bandwidth_ a) v
     (probability_ a) (kernel_ a) (normalize_densities_ a)
     (num_iterations_in_ a).

Definition set_probability_ (v : float) (a : t) : t :=
  mk (metric_ a) (densities_out_ a) (leaf_size_ a) (reference_table_ a)
     (query_table_ a) (effective_num_reference_points_ a) (bandwidth_ a)
     (relative_error_ a) v (kernel_ a) (normalize_densities_ a)
     (num_iterations_in_ a).

Definition set_kernel_ (v : string) (a : t) : t :=
  mk (metric_ a) (densities_out_ a) (leaf_size_ a) (reference_table_ a)
     (query_table_ a) (effective_num_reference_points_ a) (bandwidth_ a)
     (relative_error_ a) (probability_ a) v (normalize_densities_ a)
     (num_iterations_in_ a).

Definition set_num_iterations_in_ (v : Z) (a : t) : t :=
  mk (metric_ a) (densities_out_ a) (leaf_size_ a) (reference_table_ a)
     (query_table_ a) (effective_num_reference_points_ a) (bandwidth_ a)
     (relative_error_ a) (probability_ a) (kernel_ a)
     (normalize_densities_ a) v.

End KdeArguments.

(** The calls [Kde] makes on its [global_] member. *)
Inductive GlobalCall : Type :=
| Global_Init (reference_table query_table : TablePtr)
              (effective_num_reference_points : Z) (bandwidth : float)
              (is_monochromatic : bool) (relative_error probability : float)
              (kernel : string) (normalize_densities : bool)
| Global_set_bandwidth (bandwidth_in : float).

(** The calls [Kde::Compute] makes on its dual-tree object and iterator,
    and the [printf] of the number of prunes. *)
Inductive DualtreeCall : Type :=
| Dualtree_Init
| Dualtree_Compute
| Print_num_deterministic_prunes
| Dualtree_get_iterator
| Iterator_increment
| Iterator_Finalize.

Module Kde.

Record t : Type := mk {
  reference_table_ : TablePtr;
  query_table_ : TablePtr;
  is_monochromatic_ : bool;
  global_ : list GlobalCall
}.

Definition query_table (self : t) : TablePtr := query_table_ self.

Definition reference_table (self : t) : TablePtr := reference_table_ self.

Definition global (self : t) : list GlobalCall := global_ self.

Definition is_monochromatic (self : t) : bool := is_monochromatic_ self.

(** [void Kde::Init(KdeArguments<TableType> &arguments_in)] *)
Definition Init (arguments_in : KdeArguments.t) (self : t) : t :=
  let self :=
    mk (KdeArguments.reference_table_ arguments_in)
       (query_table_ self) (is_monochromatic_ self) (global_ self) in
  let self :=
    if (KdeArguments.query_table_ arguments_in
        =? KdeArguments.reference_table_ arguments_in)%N
    then mk (reference_table_ self) (reference_table_ self) true
            (global_ self)
    else mk (reference_table_ self)
            (KdeArguments.query_table_ arguments_in) false
            (global_ self) in
  mk (reference_table_ self) (query_table_ self) (is_monochromatic_ self)
     (global_ self ++
      [Global_Init
         (reference_table_ self) (query_table_ self)
         (KdeArguments.effective_num_reference_points_ arguments_in)
         (KdeArguments.bandwidth_ arguments_in)
         (is_monochromatic_ self)
         (KdeArguments.relative_error_ arguments_in)
         (KdeArguments.probability_ arguments_in)
         (KdeArguments.kernel_ arguments_in)
         (KdeArguments.normalize_densities_ arguments_in)]).

(** [void Kde::set_bandwidth(double bandwidth_in)] *)
Definition set_bandwidth (bandwidth_in : float) (self : t) : t :=
  mk (reference_table_ self) (query_table_ self) (is_monochromatic_ self)
     (global_ self ++ [Global_set_bandwidth bandwidth_in]).

(** The loop [for(int i = 0; i < num_iterations_in_; i++) ++kde_it;] of
    [Compute].  [i] stays below [num_iterations_in_], so [i++] does not
    overflow.  [None]: the fuel ran out before the loop ended. *)
Fixpoint increment_loop (fuel : nat) (i num_iterations_in : Z)
         (calls : list DualtreeCall) : option (list DualtreeCall) :=
  if i <? num_iterations_in then
    match fuel with
    | O => None
    | S fuel' =>
        increment_loop fuel' (i + 1) num_iterations_in
                       (calls ++ [Iterator_increment])
    end
  else Some calls.

(** [void Kde::Compute(const KdeArguments<TableType> &arguments_in,
    KdeResult<std::vector<double> > *result_out)]: the calls it makes, in
    order. *)
Definition Compute (arguments_in : KdeArguments.t)
  : option (list DualtreeCall) :=
  let calls := [Dualtree_Init] in
  if KdeArguments.num_iterations_in_ arguments_in <=? 0 then
    Some (calls ++ [Dualtree_Compute; Print_num_deterministic_prunes])
  else
    match increment_loop
            (Z.to_nat (KdeArguments.num_iterations_in_ arguments_in))
            0 (KdeArguments.num_iterations_in_ arguments_in)
            (calls ++ [Dualtree_get_iterator]) with
    | Some calls => Some (calls ++ [Iterator_Finalize])
    | None => None
    end.

(** [boost::program_options::variables_map] after [store] and [notify]
    for the options [ConstructBoostVariableMap_] declares.  An option
    declared with a default value always has a value; the others are
    present ([count > 0]) or absent.  [help] takes no value. *)
Record variables_map : Type := mk_vm {
  help : bool;
  references_in : option string;
  queries_in : option string;
  densities_out : string;
  kernel : string;
  bandwidth : option float;
  num_iterations_in : Z;
  probability : float;
  relative_error : float;
  leaf_size : Z
}.

(** [vm->count(name)] for an option without a default value. *)
Definition count {A : Type} (o : option A) : Z :=
  match o with
  | Some _ => 1
  | None => 0
  end.

(** What [store(clp.options(desc).run(), *vm)] does with the command line:
    it fills the map or throws.  The three exception classes are the ones
    [ConstructBoostVariableMap_] catches. *)
Inductive boost_exception : Type :=
| invalid_option_value
| invalid_command_line_syntax
| unknown_option
| other_exception.

Inductive store_result : Type :=
| Stored (vm : variables_map)
| Throws (e : boost_exception).

(** The messages written before [exit(0)]:
    - [Invalid_Argument]: "Invalid Argument: ..."
    - [Invalid_command_line_syntax]: "Invalid command line syntax: ..."
    - [Unknown_option]: "Unknown option: ..."
    - [Missing_references_in]: "Missing required --references_in."
    - [Unsupported_kernel]: "We support only epan or gaussian for the kernel."
    - [Bandwidth_not_positive]: "The --bandwidth requires a positive real number."
    - [Missing_bandwidth]: "Missing required --bandwidth."
    - [Probability_out_of_range]: "The --probability requires a real number $0 < p <= 1$."
    - [Relative_error_negative]: "The --relative_error requires a real number $r >= 0$."
    - [Leaf_size_not_positive]: "The --leaf_size needs to be a positive integer." *)
Inductive exit_message : Type :=
| Invalid_Argument
| Invalid_command_line_syntax
| Unknown_option
| Missing_references_in
| Unsupported_kernel
| Bandwidth_not_positive
| Missing_bandwidth
| Probability_out_of_range
| Relative_error_negative
| Leaf_size_not_positive.

(** How a call ends: it returns, the process exits, an exception leaves the
    function, or an absent value or invalid pointer is used. *)
Inductive ending (A : Type) : Type :=
| Return (a : A)
| Exit (m : exit_message)
| Uncaught (e : boost_exception)
| Fault.

Arguments Return {A} a.
Arguments Exit {A} m.
Arguments Uncaught {A} e.
Arguments Fault {A}.

(** [bool Kde::ConstructBoostVariableMap_(const std::vector<std::string>
    &args, boost::program_options::variables_map *vm)]: the returned
    [bool] and the map left in [*vm]. *)
Definition ConstructBoostVariableMap_
           (store : list string -> store_result) (args : list string)
  : ending (bool * variables_map) :=
  match store args with
  | Throws invalid_option_value => Exit Invalid_Argument
  | Throws invalid_command_line_syntax => Exit Invalid_command_line_syntax
  | Throws unknown_option => Exit Unknown_option
  | Throws other_exception => Uncaught other_exception
  | Stored vm =>
      if help vm then Return (true, vm)
      else if count (references_in vm) =? 0 then Exit Missing_references_in
      else if negb (String.eqb (kernel vm) "gaussian")
              && negb (String.eqb (kernel vm) "epan")
           then Exit Unsupported_kernel
      else if (0 <? count (bandwidth vm))
              && match bandwidth vm with
                 | Some b => PrimFloat.leb b 0
                 | None => false
                 end
           then Exit Bandwidth_not_positive
      else if count (bandwidth vm) =? 0 then Exit Missing_bandwidth
      else if PrimFloat.leb (probability vm) 0
              || PrimFloat.ltb 1 (probability vm)
           then Exit Probability_out_of_range
      else if PrimFloat.ltb (relative_error vm) 0
           then Exit Relative_error_negative
      else if leaf_size vm <=? 0 then Exit Leaf_size_not_positive
      else Return (false, vm)
  end.

(** The table type [Kde] is instantiated with: construction, [Init] from a
    file name, [IndexData] with the L2 metric and a leaf size, and
    [n_entries]. *)
Class TableType (T : Type) : Type := {
  Table_new : T;
  Table_Init : string -> T -> T;
  Table_IndexData : Z -> T -> T;
  Table_n_entries : T -> Z
}.

(** The objects allocated with [new]: the tables, a table's address being
    its position, and the number of [LMetric<2>] objects. *)
Record memory (T : Type) : Type := mk_memory {
  tables : list T;
  metrics : N
}.

Arguments mk_memory {T} tables metrics.
Arguments tables {T} m.
Arguments metrics {T} m.

(** [new TableType()] *)
Definition new_table {T : Type} `{TableType T} (ts : list T)
  : TablePtr * list T :=
  (N.of_nat (length ts), ts ++ [Table_new]).

(** A member call that changes the table at address [p]. *)
Fixpoint modify {T : Type} (p : nat) (f : T -> T) (ts : list T)
  : option (list T) :=
  match ts, p with
  | [], _ => None
  | x :: rest, O => Some (f x :: rest)
  | x :: rest, S p' =>
      match modify p' f rest with
      | Some rest' => Some (x :: rest')
      | None => None
      end
  end.

(** Reading the table at address [p]. *)
Definition deref {T : Type} (p : TablePtr) (ts : list T) : option T :=
  nth_error ts (N.to_nat p).

Definition or_fault {A B : Type} (o : option A) (k : A -> ending B)
  : ending B :=
  match o with
  | Some a => k a
  | None => Fault
  end.

Notation "'do' x <-? o ;; k" := (or_fault o (fun x => k))
  (at level 10, x name, o at level 100, k at level 200).
Notation "'do' ' pat <-? o ;; k" :=
  (or_fault o (fun x => match x with pat => k end))
  (at level 10, pat pattern, o at level 100, k at level 200).

(** [bool Kde::ParseArguments(const std::vector<std::string> &args,
    KdeArguments<TableType> *arguments_out)]: the returned [bool], the
    arguments object and the memory afterwards.  Reading an option that is
    absent from the map ([as<T>()] on an empty value) is a [Fault]. *)
Definition ParseArguments {T : Type} `{TableType T}
           (store : list string -> store_result) (args : list string)
           (arguments_out : KdeArguments.t) (mem : memory T)
  : ending (bool * KdeArguments.t * memory T) :=
  let a := KdeArguments.set_metric_ (metrics mem) arguments_out in
  let metrics' := (metrics mem + 1)%N in
  match ConstructBoostVariableMap_ store args with
  | Exit m => Exit m
  | Uncaught e => Uncaught e
  | Fault => Fault
  | Return (true, _) => Return (true, a, mk_memory (tables mem) metrics')
  | Return (false, vm) =>
      let a := KdeArguments.set_densities_out_ (densities_out vm) a in
      let a := KdeArguments.set_leaf_size_ (leaf_size vm) a in
      do refs <-? references_in vm ;;
      let '(p, ts) := new_table (tables mem) in
      let a := KdeArguments.set_reference_table_ p a in
      do ts <-? modify (N.to_nat (KdeArguments.reference_table_ a))
                       (Table_Init refs) ts ;;
      do ts <-? modify (N.to_nat (KdeArguments.reference_table_ a))
                       (Table_IndexData (KdeArguments.leaf_size_ a)) ts ;;
      do '(a, ts) <-?
        (if 0 <? count (queries_in vm) then
           match queries_in vm with
           | None => None
           | Some qs =>
               let '(q, ts) := new_table ts in
               let a := KdeArguments.set_query_table_ q a in
               match modify (N.to_nat (KdeArguments.query_table_ a))
                            (Table_Init qs) ts with
               | None => None
               | Some ts =>
                   match modify (N.to_nat (KdeArguments.query_table_ a))
                                (Table_IndexData (KdeArguments.leaf_size_ a))
                                ts with
                   | None => None
                   | Some ts =>
                       match deref (KdeArguments.reference_table_ a) ts with
                       | None => None
                       | Some r =>
                           Some (KdeArguments.set_effective_num_reference_points_
                                   (Table_n_entries r) a, ts)
                       end
                   end
               end
           end
         else
           let a :=
             KdeArguments.set_query_table_
               (KdeArguments.reference_table_ a) a in
           match deref (KdeArguments.reference_table_ a) ts with
           | None => None
           | Some r =>
               Some (KdeArguments.set_effective_num_reference_points_
                       (Table_n_entries r - 1) a, ts)
           end) ;;
      do b <-? bandwidth vm ;;
      let a := KdeArguments.set_bandwidth_ b a in
      let a := KdeArguments.set_relative_error_ (relative_error vm) a in
      let a := KdeArguments.set_probability_ (probability vm) a in
      let a := KdeArguments.set_kernel_ (kernel vm) a in
      let a := KdeArguments.set_num_iterations_in_ (num_iterations_in vm) a in
      Return (false, a, mk_memory ts metrics')
  end.

End Kde.

(** A table type for examples: a table is the list of its points, a file
    holds as many points as its name has characters, and indexing keeps
    the points. *)
#[export] Instance NameLengthTable : Kde.TableType (list Z) := {|
  Kde.Table_new := [];
  Kde.Table_Init := fun file_name _ => repeat 0 (String.length file_name);
  Kde.Table_IndexData := fun _ t => t;
  Kde.Table_n_entries := fun t => Z.of_nat (length t)
|}.

(** The map for the command line
    [--references_in=refs.csv --bandwidth=0.5]. *)
Definition leave_one_out_vm : Kde.variables_map :=
  Kde.mk_vm false (Some "refs.csv"%string) None "densities_out.csv"%string
            "epan"%string (Some 0.5%float) 0 1%float 0.015625%float 20.

(** The same with [--queries_in=q.csv]. *)
Definition two_table_vm : Kde.variables_map :=
  Kde.mk_vm false (Some "refs.csv"%string) (Some "q.csv"%string)
            "densities_out.csv"%string "epan"%string (Some 0.5%float) 0
            1%float 0.015625%float 20.

(** The map for [--help]. *)
Definition help_vm : Kde.variables_map :=
  Kde.mk_vm true None None "densities_out.csv"%string "epan"%string None 0
            1%float 0.015625%float 20.

(** An arguments object before parsing. *)
Definition blank_arguments : KdeArguments.t :=
  KdeArguments.mk 0%N ""%string 0 0%N 0%N 0 0%float 0%float 0%float
                  ""%string false 0.

(** A [Kde] object before [Init]. *)
Definition blank_Kde : Kde.t := Kde.mk 0%N 0%N false [].

Ltac split_ifs :=
  repeat match goal with
         | |- context [if ?c then _ else _] => destruct c eqn:?
         | H : context [if ?c then _ else _] |- _ => destruct c eqn:?
         end.

(** What makes the validation in [ConstructBoostVariableMap_] pass. *)
Definition accepted (vm : Kde.variables_map) : Prop :=
  Kde.help vm = false /\
  (exists file, Kde.references_in vm = Some file) /\
  (Kde.kernel vm = "gaussian"%string \/ Kde.kernel vm = "epan"%string) /\
  (exists b, Kde.bandwidth vm = Some b /\ PrimFloat.leb b 0 = false) /\
  PrimFloat.leb (Kde.probability vm) 0 = false /\
  PrimFloat.ltb 1 (Kde.probability vm) = false /\
  PrimFloat.ltb (Kde.relative_error vm) 0 = false /\
  0 < Kde.leaf_size vm.

(** The content of a table built from a file. *)
Definition built_table {T : Type} `{Kde.TableType T}
           (file : string) (leaf : Z) : T :=
  Kde.Table_IndexData leaf (Kde.Table_Init file Kde.Table_new).

Create HintDb registry.
#[local] Hint Unfold ComparatorType equivalent bool_of_int Merge_ hull
  first second well_formed separated contained_in inside : registry.

Ltac unfold_registry := autounfold with registry in *; simpl in *.

Ltac split_tests :=
  repeat match goal with
         | |- context [?x <? ?y] => destruct (Z.ltb_spec x y)
         | |- context [?x =? ?y] => destruct (Z.eqb_spec x y)
         end.

(** ** The comparator *)

Section Comparator.

Variables k1 k2 : KeyType.

(** What the [bool] returned by the comparator says about its arguments:
    both non-zero results become [true]. *)
Lemma ComparatorType_true_iff :
  ComparatorType k1 k2 = true <->
  second k1 < first k2 \/ second k2 < first k1.
Proof.
  unfold_registry. split_tests; simpl; split; intros; try lia; congruence.
Qed.

Lemma ComparatorType_sym : ComparatorType k1 k2 = ComparatorType k2 k1.
Proof.
  unfold_registry. split_tests; simpl; try reflexivity; lia.
Qed.

Lemma equivalent_true_iff :
  equivalent k1 k2 = true <->
  first k2 <= second k1 /\ first k1 <= second k2.
Proof.
  unfold_registry. split_tests; simpl; split; intros; try lia; congruence.
Qed.

End Comparator.

Lemma ComparatorType_irrefl (k : KeyType) :
  well_formed k -> ComparatorType k k = false.
Proof.
  intros Hk. unfold_registry. split_tests; simpl; try reflexivity; lia.
Qed.

(** Keys that share an end point are equivalent. *)
Lemma equivalent_shared_endpoint (a b : KeyType) :
  well_formed a -> well_formed b -> second a = first b ->
  equivalent a b = true.
Proof.
  intros Ha Hb Hab. apply equivalent_true_iff. unfold_registry. lia.
Qed.

(** ** Calls *)

Lemma Init_spec (st : DisjointIntIntervals) :
  Init st = Returns tt (mkRegistry []).
Proof. reflexivity. Qed.

Lemma Insert_spec (iv : ValueType) (st : DisjointIntIntervals) :
  Insert iv st = Returns true st.
Proof. reflexivity. Qed.

Lemma InsertAll_spec (calls : list ValueType) (st : DisjointIntIntervals) :
  InsertAll calls st = Returns (map (fun _ => true) calls) st.
Proof.
  induction calls as [|iv rest IH]; simpl.
  - reflexivity.
  - unfold bind. rewrite Insert_spec, IH. reflexivity.
Qed.

Lemma Init_InsertAll_spec (calls : list ValueType) (st : DisjointIntIntervals) :
  (Init ;;; InsertAll calls) st =
  Returns (map (fun _ => true) calls) (mkRegistry []).
Proof.
  unfold bind. rewrite Init_spec. apply InsertAll_spec.
Qed.

Lemma pairwise_separated_nil : pairwise_separated [].
Proof. intros a b []. Qed.

(** The coverage never loses a point through [Insert]. *)
Lemma Insert_keeps_coverage (iv : ValueType) (st st' : DisjointIntIntervals)
      (r : bool) (x : Z) :
  Insert iv st = Returns r st' -> covered st x = true -> covered st' x = true.
Proof.
  rewrite Insert_spec. intros H. inversion H. subst. trivial.
Qed.

(** ** The registry properties, settled on the code *)

(** C1 (disjointness invariant): starting from an initialised registry,
    after any finite sequence of [Insert] calls with [lo <= hi] the calls
    all return and any two distinct stored intervals [a], [b] satisfy
    [a.hi < b.lo - 1] or [b.hi < a.lo - 1].  On this code the registry is
    still empty after the calls, so no two stored intervals exist. *)
Theorem Insert_disjointness_invariant
        (st0 : DisjointIntIntervals) (calls : list ValueType) :
  Forall well_formed calls ->
  exists rs st',
    (Init ;;; InsertAll calls) st0 = Returns rs st' /\
    pairwise_separated (stored st').
Proof.
  intros _. exists (map (fun _ => true) calls), (mkRegistry []). split.
  - apply Init_InsertAll_spec.
  - apply pairwise_separated_nil.
Qed.

Lemma Insert_disjointness_invariant_witness :
  Forall well_formed [(0, 2); (5, 7); (6, 9)] /\
  exists rs st',
    (Init ;;; InsertAll [(0, 2); (5, 7); (6, 9)]) three_intervals
    = Returns rs st' /\
    pairwise_separated (stored st').
Proof.
  assert (H : Forall well_formed [(0, 2); (5, 7); (6, 9)]).
  { repeat constructor; unfold well_formed; simpl; lia. }
  split.
  - exact H.
  - exact (Insert_disjointness_invariant three_intervals _ H).
Defined.

(** C2 (idempotence of full re-claim), evaluated on the code: with [0,10]
    stored, claiming [3,6] (inside it) leaves the stored set unchanged but
    returns [true], not [false]; and after [Init], [Insert (0,10)],
    the call [Insert (3,6)] returns [true] as well. *)
Theorem Insert_contained_returns_true :
  let st := mkRegistry [((0, 10), (0, 10))] in
  existsb (contained_in (3, 6)) (stored st) = true /\
  Insert (3, 6) st = Returns true st /\
  (Init ;;; Insert (0, 10) ;;; Insert (3, 6)) st
  = Returns true (mkRegistry []).
Proof. repeat split. Qed.

(** C3 (coverage monotonicity), evaluated on the code: after [Init] and
    [Insert (0,0)] the point 0 of the claimed interval is not covered. *)
Theorem Insert_does_not_add_coverage :
  exists st',
    (Init ;;; Insert (0, 0)) (mkRegistry []) = Returns true st' /\
    inside 0 (0, 0) = true /\
    covered st' 0 = false.
Proof. exists (mkRegistry []). repeat split. Qed.

(** C4 (empty-registry first claim), evaluated on the code: after [Init],
    any [Insert] returns [true] and the stored set is still empty; for
    [Insert (0,0)] it is not the one interval [0,0]. *)
Theorem Init_Insert_stores_nothing :
  (forall st iv, (Init ;;; Insert iv) st = Returns true (mkRegistry [])) /\
  stored (mkRegistry []) <> [(0, 0)].
Proof.
  split.
  - reflexivity.
  - discriminate.
Qed.

(** C5 (the comparator as a strict weak ordering), evaluated on the code:
    for the disjoint intervals [5,6] and [0,1] the comparator answers [true]
    in both directions, and it answers [true] for ([5,6], [0,1]) although
    [6 < 0] is false. *)
Theorem ComparatorType_both_directions :
  let a : KeyType := (5, 6) in
  let b : KeyType := (0, 1) in
  well_formed a /\ well_formed b /\ second b < first a /\
  ComparatorType a b = true /\ ComparatorType b a = true /\
  (second a <? first b) = false.
Proof. unfold well_formed; simpl; repeat split; lia. Qed.

(** C6 as stated fails: [5,10] and [11,15] touch ([10 + 1 = 11]) and the
    comparator orders the first before the second; they are not
    equivalent. *)
Lemma touching_pair_is_ordered :
  let a : KeyType := (5, 10) in
  let b : KeyType := (11, 15) in
  second a + 1 = first b /\
  ComparatorType a b = true /\
  equivalent a b = false.
Proof. repeat split. Qed.

(** C6, amended: for every pair of intervals [a], [b] with
    [a.hi + 1 = b.lo] the strict test [a.hi < b.lo] is true, so the
    comparator returns [true] for ([a], [b]) and the two are not
    equivalent. *)
Theorem touching_not_equivalent (a b : KeyType) :
  second a + 1 = first b ->
  (second a <? first b) = true /\
  ComparatorType a b = true /\
  equivalent a b = false.
Proof.
  intros Htouch.
  assert (Hlt : second a < first b) by lia.
  assert (Hcmp : ComparatorType a b = true).
  { apply ComparatorType_true_iff. now left. }
  repeat split.
  - now apply Z.ltb_lt.
  - exact Hcmp.
  - unfold equivalent. rewrite Hcmp. reflexivity.
Qed.

Lemma touching_not_equivalent_witness :
  second (5, 10) + 1 = first (11, 15) /\
  (second (5, 10) <? first (11, 15)) = true /\
  ComparatorType (5, 10) (11, 15) = true /\
  equivalent (5, 10) (11, 15) = false.
Proof.
  split.
  - reflexivity.
  - apply (touching_not_equivalent (5, 10) (11, 15)). reflexivity.
Defined.

(** C7 as stated fails: with the merged bound started at the test interval
    [3,6] and the overlapping stored interval [0,10], [Merge_] gives [3,10],
    not the union [0,10]; and with merged bound [5,20] the same stored
    interval shrinks the upper bound to 10. *)
Lemma Merge__not_union_example :
  let s : ValueType := (0, 10) in
  equivalent s (3, 6) = true /\
  Merge_ s (3, 6) = (3, 10) /\
  Merge_ s (3, 6) <> hull (3, 6) s /\
  equivalent s (5, 20) = true /\
  second (Merge_ s (5, 20)) < second (5, 20).
Proof.
  cbv zeta. split; [reflexivity|]. split; [reflexivity|].
  split; [discriminate|]. split; [reflexivity|].
  unfold Merge_, first, second; simpl. lia.
Qed.

(** C7, amended: when the stored interval [s] shares an end point with the
    merged bound ([s.hi = merged.lo] or [s.lo = merged.hi], both with
    [lo <= hi]), [Merge_] extends the bound to the union: the lower bound
    becomes [min merged.lo s.lo], the upper bound [max merged.hi s.hi], and
    neither bound shrinks. *)
Theorem Merge__shared_endpoint (s merged : ValueType) :
  well_formed s -> well_formed merged ->
  second s = first merged \/ first s = second merged ->
  Merge_ s merged = hull merged s /\
  first (Merge_ s merged) <= first merged /\
  second merged <= second (Merge_ s merged).
Proof.
  destruct s as [slo shi], merged as [mlo mhi].
  unfold_registry. intros Hs Hm Htouch.
  destruct (Z.eqb_spec mlo shi); simpl; repeat split; try lia;
    f_equal; lia.
Qed.

Lemma Merge__shared_endpoint_witness :
  well_formed (0, 5) /\ well_formed (5, 9) /\
  (second (0, 5) = first (5, 9) \/ first (0, 5) = second (5, 9)) /\
  Merge_ (0, 5) (5, 9) = hull (5, 9) (0, 5) /\
  first (Merge_ (0, 5) (5, 9)) <= first (5, 9) /\
  second (5, 9) <= second (Merge_ (0, 5) (5, 9)).
Proof.
  assert (Hs : well_formed (0, 5)) by (unfold well_formed; simpl; lia).
  assert (Hm : well_formed (5, 9)) by (unfold well_formed; simpl; lia).
  assert (Ht : second (0, 5) = first (5, 9) \/ first (0, 5) = second (5, 9))
    by (left; reflexivity).
  repeat split; try assumption;
    apply (Merge__shared_endpoint (0, 5) (5, 9) Hs Hm Ht).
Defined.

(** C8 (multi-merge), evaluated on the code: with [0,2], [5,7], [10,12]
    stored, [Insert (1,11)] returns [true] and the three intervals are still
    stored, not the single [0,12]; claiming the four intervals in turn after
    [Init] returns [true] four times and stores nothing. *)
Theorem Insert_does_not_merge :
  stored three_intervals = [(0, 2); (5, 7); (10, 12)] /\
  Insert (1, 11) three_intervals = Returns true three_intervals /\
  stored three_intervals <> [(0, 12)] /\
  (Init ;;; InsertAll [(0, 2); (5, 7); (10, 12); (1, 11)]) (mkRegistry [])
  = Returns [true; true; true; true] (mkRegistry []).
Proof.
  split; [reflexivity|]. split; [reflexivity|].
  split; [discriminate|]. reflexivity.
Qed.




(** C10 (the body of [Insert] as it stands): for every registry state and
    every input interval, [Insert] returns [true] and the interval map is
    the same afterwards: no entry is inserted, erased or changed. *)
Theorem Insert_returns_true_and_keeps_map
        (st : DisjointIntIntervals) (iv : ValueType) :
  exists st',
    Insert iv st = Returns true st' /\
    intervals_ st' = intervals_ st /\
    st' = st.
Proof.
  exists st. rewrite Insert_spec. repeat split.
Qed.

(** ** Further properties of the comparator and of [Merge_] *)

(** X1: the comparator cannot tell which of two keys is the lower one: it
    gives the same answer with its arguments exchanged. *)
Theorem ComparatorType_symmetric (k1 k2 : KeyType) :
  ComparatorType k1 k2 = ComparatorType k2 k1.
Proof. apply ComparatorType_sym. Qed.

(** X2: for intervals with [lo <= hi] the comparator answers [false]
    exactly when the two share an integer. *)
Theorem ComparatorType_false_iff_common_point (k1 k2 : KeyType) :
  well_formed k1 -> well_formed k2 ->
  (ComparatorType k1 k2 = false <->
   exists x, inside x k1 = true /\ inside x k2 = true).
Proof.
  intros H1 H2.
  destruct (ComparatorType k1 k2) eqn:Hc.
  - apply ComparatorType_true_iff in Hc. split; [discriminate|].
    intros [x [Hx1 Hx2]]. exfalso. unfold_registry.
    apply andb_prop in Hx1, Hx2. destruct Hx1, Hx2. lia.
  - split; [intros _|reflexivity].
    assert (Hn : ~ (second k1 < first k2 \/ second k2 < first k1)).
    { intros Hd. apply ComparatorType_true_iff in Hd. congruence. }
    exists (Z.max (first k1) (first k2)).
    unfold_registry. split; apply andb_true_intro; split; lia.
Qed.

Lemma ComparatorType_false_iff_common_point_witness :
  well_formed (0, 10) /\ well_formed (10, 12) /\
  (ComparatorType (0, 10) (10, 12) = false <->
   exists x, inside x (0, 10) = true /\ inside x (10, 12) = true).
Proof.
  assert (H1 : well_formed (0, 10)) by (unfold well_formed; simpl; lia).
  assert (H2 : well_formed (10, 12)) by (unfold well_formed; simpl; lia).
  split; [exact H1|]. split; [exact H2|].
  exact (ComparatorType_false_iff_common_point (0, 10) (10, 12) H1 H2).
Defined.

(** X3: a key is unordered with respect to itself exactly when its lower
    bound is not above its upper bound; a pair with [lo > hi] is ordered
    before itself. *)
Theorem ComparatorType_self (k : KeyType) :
  ComparatorType k k = false <-> well_formed k.
Proof.
  split.
  - intros Hc. destruct (Z.le_gt_cases (first k) (second k)) as [H|H].
    + exact H.
    + assert (ComparatorType k k = true)
        by (apply ComparatorType_true_iff; left; lia).
      congruence.
  - apply ComparatorType_irrefl.
Qed.

(** X4: [Merge_] keeps [lo <= hi]: merging a stored interval that is
    equivalent to the bound (they share an integer) into a bound with
    [lo <= hi] gives a bound with [lo <= hi]. *)
Theorem Merge__well_formed (s merged : ValueType) :
  well_formed s -> well_formed merged -> equivalent s merged = true ->
  well_formed (Merge_ s merged).
Proof.
  intros Hs Hm He. apply equivalent_true_iff in He.
  destruct s as [slo shi], merged as [mlo mhi]. unfold_registry.
  destruct (Z.eqb_spec mlo shi); simpl; lia.
Qed.

Lemma Merge__well_formed_witness :
  well_formed (0, 10) /\ well_formed (3, 6) /\
  equivalent (0, 10) (3, 6) = true /\
  well_formed (Merge_ (0, 10) (3, 6)).
Proof.
  assert (Hs : well_formed (0, 10)) by (unfold well_formed; simpl; lia).
  assert (Hm : well_formed (3, 6)) by (unfold well_formed; simpl; lia).
  assert (He : equivalent (0, 10) (3, 6) = true) by reflexivity.
  split; [exact Hs|]. split; [exact Hm|]. split; [exact He|].
  exact (Merge__well_formed (0, 10) (3, 6) Hs Hm He).
Defined.

(** X5: the result of [Merge_] never reaches outside the union of its two
    arguments: every integer inside the result is inside the hull. *)
Theorem Merge__inside_hull (s merged : ValueType) (x : Z) :
  inside x (Merge_ s merged) = true -> inside x (hull merged s) = true.
Proof.
  destruct s as [slo shi], merged as [mlo mhi]. unfold_registry.
  destruct (Z.eqb_spec mlo shi); simpl; intros H;
    apply andb_prop in H; destruct H;
    apply andb_true_intro; split; lia.
Qed.

Lemma Merge__inside_hull_witness :
  inside 4 (Merge_ (0, 10) (3, 6)) = true /\
  inside 4 (hull (3, 6) (0, 10)) = true.
Proof.
  assert (H : inside 4 (Merge_ (0, 10) (3, 6)) = true) by reflexivity.
  split; [exact H|].
  exact (Merge__inside_hull (0, 10) (3, 6) 4 H).
Defined.

(** X6: every integer that the stored interval and the bound have in
    common stays inside the merged bound. *)
Theorem Merge__keeps_common_points (s merged : ValueType) (x : Z) :
  inside x s = true -> inside x merged = true ->
  inside x (Merge_ s merged) = true.
Proof.
  destruct s as [slo shi], merged as [mlo mhi]. unfold_registry.
  intros Hs Hm. apply andb_prop in Hs, Hm. destruct Hs, Hm.
  destruct (Z.eqb_spec mlo shi); simpl; apply andb_true_intro; split; lia.
Qed.

Lemma Merge__keeps_common_points_witness :
  inside 4 (0, 10) = true /\ inside 4 (3, 6) = true /\
  inside 4 (Merge_ (0, 10) (3, 6)) = true.
Proof.
  assert (Hs : inside 4 (0, 10) = true) by reflexivity.
  assert (Hm : inside 4 (3, 6) = true) by reflexivity.
  split; [exact Hs|]. split; [exact Hm|].
  exact (Merge__keeps_common_points (0, 10) (3, 6) 4 Hs Hm).
Defined.

(** X7: when [Merge_] gives the union.  For intervals with [lo <= hi] the
    merged bound is the hull of the two exactly when the bound's lower end
    is the stored interval's upper end, or the stored interval starts and
    ends no lower than the bound. *)
Theorem Merge__is_hull_iff (s merged : ValueType) :
  well_formed s -> well_formed merged ->
  (Merge_ s merged = hull merged s <->
   first merged = second s \/
   (first merged <= first s /\ second merged <= second s)).
Proof.
  destruct s as [slo shi], merged as [mlo mhi]. unfold_registry.
  intros Hs Hm. destruct (Z.eqb_spec mlo shi) as [E|E]; simpl.
  - split; [intros _; now left|]. intros _. f_equal; lia.
  - split.
    + intros H. injection H as H1 H2. right. lia.
    + intros [H|[H1 H2]]; [contradiction|]. f_equal; lia.
Qed.

Lemma Merge__is_hull_iff_witness :
  well_formed (4, 9) /\ well_formed (3, 6) /\
  (Merge_ (4, 9) (3, 6) = hull (3, 6) (4, 9) <->
   first (3, 6) = second (4, 9) \/
   (first (3, 6) <= first (4, 9) /\ second (3, 6) <= second (4, 9))).
Proof.
  assert (Hs : well_formed (4, 9)) by (unfold well_formed; simpl; lia).
  assert (Hm : well_formed (3, 6)) by (unfold well_formed; simpl; lia).
  split; [exact Hs|]. split; [exact Hm|].
  exact (Merge__is_hull_iff (4, 9) (3, 6) Hs Hm).
Defined.

(** X8: a bound with a neighbour on each side.  When [l] ends where the
    bound starts and [r] starts where the bound ends, merging [l] then [r]
    and merging [r] then [l] both give the interval from [l]'s lower end to
    [r]'s upper end. *)
Theorem Merge__both_neighbours (l r merged : ValueType) :
  well_formed l -> well_formed merged -> well_formed r ->
  second l = first merged -> first r = second merged ->
  Merge_ r (Merge_ l merged) = (first l, second r) /\
  Merge_ l (Merge_ r merged) = (first l, second r).
Proof.
  destruct l as [llo lhi], r as [rlo rhi], merged as [mlo mhi].
  unfold_registry. intros Hl Hm Hr E1 E2. subst lhi rlo.
  split.
  - rewrite Z.eqb_refl. simpl.
    destruct (Z.eqb_spec llo rhi); simpl; f_equal; lia.
  - destruct (Z.eqb_spec mlo rhi); simpl.
    + destruct (Z.eqb_spec mhi mlo); simpl; f_equal; lia.
    + rewrite Z.eqb_refl. reflexivity.
Qed.

Lemma Merge__both_neighbours_witness :
  well_formed (0, 3) /\ well_formed (3, 6) /\ well_formed (6, 9) /\
  second (0, 3) = first (3, 6) /\ first (6, 9) = second (3, 6) /\
  Merge_ (6, 9) (Merge_ (0, 3) (3, 6)) = (first (0, 3), second (6, 9)) /\
  Merge_ (0, 3) (Merge_ (6, 9) (3, 6)) = (first (0, 3), second (6, 9)).
Proof.
  assert (Hl : well_formed (0, 3)) by (unfold well_formed; simpl; lia).
  assert (Hm : well_formed (3, 6)) by (unfold well_formed; simpl; lia).
  assert (Hr : well_formed (6, 9)) by (unfold well_formed; simpl; lia).
  assert (E1 : second (0, 3) = first (3, 6)) by reflexivity.
  assert (E2 : first (6, 9) = second (3, 6)) by reflexivity.
  split; [exact Hl|]. split; [exact Hm|]. split; [exact Hr|].
  split; [exact E1|]. split; [exact E2|].
  exact (Merge__both_neighbours (0, 3) (6, 9) (3, 6) Hl Hm Hr E1 E2).
Defined.

(** X9: whatever the registry holds, any sequence of [Insert] calls
    returns, answers [true] once per call, and leaves every stored interval
    and the coverage of every integer as they were. *)
Theorem InsertAll_frame (st : DisjointIntIntervals) (calls : list ValueType) :
  exists rs st',
    InsertAll calls st = Returns rs st' /\
    length rs = length calls /\
    Forall (fun r => r = true) rs /\
    stored st' = stored st /\
    (forall x, covered st' x = covered st x).
Proof.
  exists (map (fun _ => true) calls), st.
  split; [apply InsertAll_spec|].
  split; [apply length_map|].
  split; [|split; reflexivity].
  apply Forall_forall. intros r Hr. apply in_map_iff in Hr.
  destruct Hr as [_ [Hr _]]. now symmetry.
Qed.

(** ** Kde: [Init] and [Compute] *)

Lemma Init_monochromatic_iff (arguments_in : KdeArguments.t) (self : Kde.t) :
  (Kde.is_monochromatic (Kde.Init arguments_in self) = true <->
   KdeArguments.query_table_ arguments_in
   = KdeArguments.reference_table_ arguments_in) /\
  Kde.query_table (Kde.Init arguments_in self)
  = KdeArguments.query_table_ arguments_in.
Proof.
  unfold Kde.Init, Kde.query_table, Kde.is_monochromatic.
  destruct (N.eqb_spec (KdeArguments.query_table_ arguments_in)
                       (KdeArguments.reference_table_ arguments_in)) as [E|E];
    simpl.
  - split; [split; trivial|now symmetry].
  - split; [split; [discriminate|contradiction]|reflexivity].
Qed.

(** X10: after [Kde::Init] the query table is the one given in the
    arguments (in both branches), the reference table is the one given, and
    the object is monochromatic exactly when the two are the same table. *)
Theorem Kde_Init_tables (arguments_in : KdeArguments.t) (self : Kde.t) :
  Kde.query_table (Kde.Init arguments_in self)
  = KdeArguments.query_table_ arguments_in /\
  Kde.reference_table (Kde.Init arguments_in self)
  = KdeArguments.reference_table_ arguments_in /\
  (Kde.is_monochromatic (Kde.Init arguments_in self) = true <->
   KdeArguments.query_table_ arguments_in
   = KdeArguments.reference_table_ arguments_in).
Proof.
  unfold Kde.Init, Kde.query_table, Kde.reference_table, Kde.is_monochromatic.
  destruct (N.eqb_spec (KdeArguments.query_table_ arguments_in)
                       (KdeArguments.reference_table_ arguments_in)) as [E|E];
    simpl.
  - split; [now symmetry|]. split; [reflexivity|]. split; trivial.
  - split; [reflexivity|]. split; [reflexivity|].
    split; [discriminate|contradiction].
Qed.

Lemma increment_loop_runs (fuel : nat) :
  forall (i n : Z) (calls : list DualtreeCall),
    i <= n -> (Z.to_nat (n - i) <= fuel)%nat ->
    Kde.increment_loop fuel i n calls
    = Some (calls ++ repeat Iterator_increment (Z.to_nat (n - i))).
Proof.
  induction fuel as [|fuel IH]; intros i n calls Hin Hfuel; simpl.
  - destruct (Z.ltb_spec i n); [lia|].
    replace (n - i) with 0 by lia. simpl. now rewrite app_nil_r.
  - destruct (Z.ltb_spec i n) as [Hlt|Hge].
    + rewrite IH by lia.
      replace (Z.to_nat (n - i)) with (S (Z.to_nat (n - (i + 1)))) by lia.
      simpl. now rewrite <- app_assoc.
    + replace (n - i) with 0 by lia. simpl. now rewrite app_nil_r.
Qed.

(** X11: [Kde::Compute] always finishes.  With [num_iterations_in_ <= 0]
    it initialises the dual-tree object, runs it once and prints the number
    of prunes; with [num_iterations_in_ = n > 0] it initialises it, takes
    an iterator, increments the iterator exactly [n] times and then
    finalizes it. *)
Theorem Kde_Compute_calls (arguments_in : KdeArguments.t) :
  let n := KdeArguments.num_iterations_in_ arguments_in in
  Kde.Compute arguments_in =
  Some (if n <=? 0
        then [Dualtree_Init; Dualtree_Compute; Print_num_deterministic_prunes]
        else [Dualtree_Init; Dualtree_get_iterator]
             ++ repeat Iterator_increment (Z.to_nat n)
             ++ [Iterator_Finalize]).
Proof.
  cbv zeta. unfold Kde.Compute.
  destruct (Z.leb_spec (KdeArguments.num_iterations_in_ arguments_in) 0)
    as [Hle|Hgt].
  - reflexivity.
  - rewrite increment_loop_runs by lia.
    rewrite Z.sub_0_r. reflexivity.
Qed.

(** ** Kde: command-line validation *)

Lemma Construct_accepts (store : list string -> Kde.store_result)
      (args : list string) (vm : Kde.variables_map) :
  store args = Kde.Stored vm -> accepted vm ->
  Kde.ConstructBoostVariableMap_ store args = Kde.Return (false, vm).
Proof.
  intros Hs (Hh & [f Hf] & Hk & [b [Hb Hb0]] & Hp0 & Hp1 & Hr & Hl).
  unfold Kde.ConstructBoostVariableMap_. rewrite Hs, Hh, Hf, Hb. simpl.
  rewrite Hb0, Hp0, Hp1, Hr. simpl.
  destruct (Z.leb_spec (Kde.leaf_size vm) 0); [lia|].
  destruct Hk as [Hk|Hk]; rewrite Hk; reflexivity.
Qed.

Lemma Construct_accepted (store : list string -> Kde.store_result)
      (args : list string) (vm : Kde.variables_map) :
  Kde.ConstructBoostVariableMap_ store args = Kde.Return (false, vm) ->
  store args = Kde.Stored vm /\ accepted vm.
Proof.
  unfold Kde.ConstructBoostVariableMap_, accepted.
  destruct (store args) as [vm'|e]; [|destruct e; discriminate].
  destruct (Kde.help vm') eqn:Hh; [discriminate|].
  destruct (Kde.references_in vm') as [f|] eqn:Hf; simpl; [|discriminate].
  destruct (String.eqb_spec (Kde.kernel vm') "gaussian") as [Hg|Hg];
    destruct (String.eqb_spec (Kde.kernel vm') "epan") as [He|He];
    simpl; try discriminate;
    (destruct (Kde.bandwidth vm') as [b|] eqn:Hb; simpl; [|discriminate];
     destruct (PrimFloat.leb b 0) eqn:Hb0; [discriminate|];
     destruct (PrimFloat.leb (Kde.probability vm') 0) eqn:Hp0;
       simpl; [discriminate|];
     destruct (PrimFloat.ltb 1 (Kde.probability vm')) eqn:Hp1;
       [discriminate|];
     destruct (PrimFloat.ltb (Kde.relative_error vm') 0) eqn:Hr;
       [discriminate|];
     destruct (Z.leb_spec (Kde.leaf_size vm') 0) as [Hl|Hl]; [discriminate|];
     intros Hret; injection Hret as <-;
     rewrite Hh, Hf, Hb;
     repeat split; eauto).
Qed.

Lemma Construct_true_inv (store : list string -> Kde.store_result)
      (args : list string) (vm : Kde.variables_map) :
  Kde.ConstructBoostVariableMap_ store args = Kde.Return (true, vm) ->
  store args = Kde.Stored vm /\ Kde.help vm = true.
Proof.
  unfold Kde.ConstructBoostVariableMap_.
  destruct (store args) as [vm'|e]; [|destruct e; discriminate].
  destruct (Kde.help vm') eqn:Hh.
  - intros Hret. injection Hret as <-. now split.
  - split_ifs; discriminate.
Qed.

(** X12: [ConstructBoostVariableMap_] returns [false] (go on with the
    computation) exactly when the command line was stored without an
    exception, [help] is absent, [references_in] and [bandwidth] are
    present, the kernel is gaussian or epan, [bandwidth <= 0],
    [probability <= 0], [probability > 1] and [relative_error < 0] are all
    false, and [leaf_size] is positive. *)
Theorem Construct_returns_false_iff
        (store : list string -> Kde.store_result) (args : list string)
        (vm : Kde.variables_map) :
  Kde.ConstructBoostVariableMap_ store args = Kde.Return (false, vm) <->
  store args = Kde.Stored vm /\ accepted vm.
Proof.
  split.
  - apply Construct_accepted.
  - intros [Hs Ha]. now apply Construct_accepts.
Qed.

(** X13: [ConstructBoostVariableMap_] returns [true] (stop, usage was
    printed) exactly when the command line was stored without an exception
    and [help] is present; no other option is looked at, so a missing
    [references_in] or an invalid number goes unreported. *)
Theorem Construct_returns_true_iff
        (store : list string -> Kde.store_result) (args : list string)
        (vm : Kde.variables_map) :
  Kde.ConstructBoostVariableMap_ store args = Kde.Return (true, vm) <->
  store args = Kde.Stored vm /\ Kde.help vm = true.
Proof.
  unfold Kde.ConstructBoostVariableMap_. split.
  - destruct (store args) as [vm'|e]; [|destruct e; discriminate].
    destruct (Kde.help vm') eqn:Hh.
    + intros H. injection H as <-. now split.
    + split_ifs; discriminate.
  - intros [-> ->]. reflexivity.
Qed.

Lemma is_nan_Prim2SF (x : float) :
  PrimFloat.is_nan x = true -> Prim2SF x = S754_nan.
Proof.
  unfold PrimFloat.is_nan. rewrite FloatAxioms.eqb_spec.
  destruct (Prim2SF x) as [s|s| |s m e]; try reflexivity; intros H; exfalso.
  - destruct s; discriminate.
  - destruct s; discriminate.
  - unfold SFeqb, SFcompare in H.
    destruct s; rewrite Z.compare_refl in H;
      try rewrite Pos.compare_cont_refl in H;
      try rewrite Pos.compare_refl in H; simpl in H; discriminate.
Qed.

Lemma is_nan_leb (x y : float) :
  PrimFloat.is_nan x = true -> PrimFloat.leb x y = false.
Proof. intros H. rewrite FloatAxioms.leb_spec, (is_nan_Prim2SF x H). reflexivity. Qed.

Lemma is_nan_ltb_l (x y : float) :
  PrimFloat.is_nan x = true -> PrimFloat.ltb x y = false.
Proof. intros H. rewrite FloatAxioms.ltb_spec, (is_nan_Prim2SF x H). reflexivity. Qed.

Lemma is_nan_ltb_r (x y : float) :
  PrimFloat.is_nan y = true -> PrimFloat.ltb x y = false.
Proof.
  intros H. rewrite FloatAxioms.ltb_spec, (is_nan_Prim2SF y H).
  unfold SFltb, SFcompare.
  destruct (Prim2SF x) as [s|s| |s m e]; try destruct s; reflexivity.
Qed.

(** X14: the numeric checks are comparisons, and every comparison with a
    NaN is false: a command line whose bandwidth, probability and relative
    error are NaN passes the validation when the other options are
    valid. *)
Theorem Construct_accepts_NaN
        (store : list string -> Kde.store_result) (args : list string)
        (refs dens kern : string) (queries : option string)
        (b p r : float) (n leaf : Z) :
  kern = "gaussian"%string \/ kern = "epan"%string ->
  0 < leaf ->
  PrimFloat.is_nan b = true ->
  PrimFloat.is_nan p = true ->
  PrimFloat.is_nan r = true ->
  store args
  = Kde.Stored (Kde.mk_vm false (Some refs) queries dens kern (Some b)
                          n p r leaf) ->
  Kde.ConstructBoostVariableMap_ store args
  = Kde.Return (false,
                Kde.mk_vm false (Some refs) queries dens kern (Some b)
                          n p r leaf).
Proof.
  intros Hk Hl Hb Hp Hr Hs. apply Construct_accepts; [exact Hs|].
  unfold accepted; simpl.
  split; [reflexivity|]. split; [now exists refs|]. split; [exact Hk|].
  split; [exists b; split; [reflexivity|now apply is_nan_leb]|].
  split; [now apply is_nan_leb|].
  split; [now apply is_nan_ltb_r|].
  split; [now apply is_nan_ltb_l|exact Hl].
Qed.

Lemma Construct_accepts_NaN_witness :
  Kde.ConstructBoostVariableMap_
    (fun _ => Kde.Stored (Kde.mk_vm false (Some "refs.csv"%string) None
                                    "out.csv"%string "epan"%string
                                    (Some nan) 0 nan nan 20))
    ["--references_in=refs.csv"%string; "--bandwidth=nan"%string]
  = Kde.Return (false,
                Kde.mk_vm false (Some "refs.csv"%string) None
                          "out.csv"%string "epan"%string
                          (Some nan) 0 nan nan 20).
Proof.
  apply (Construct_accepts_NaN
           (fun _ => Kde.Stored (Kde.mk_vm false (Some "refs.csv"%string) None
                                    "out.csv"%string "epan"%string
                                    (Some nan) 0 nan nan 20))
           ["--references_in=refs.csv"%string; "--bandwidth=nan"%string]
           "refs.csv" "out.csv" "epan" None nan nan nan 0 20).
  - right; reflexivity.
  - lia.
  - reflexivity.
  - reflexivity.
  - reflexivity.
  - reflexivity.
Defined.

(** ** Kde: [ParseArguments] *)

Lemma modify_last {T : Type} (f : T -> T) (ts : list T) (x : T) :
  Kde.modify (length ts) f (ts ++ [x]) = Some (ts ++ [f x]).
Proof.
  induction ts as [|y ts IH]; simpl.
  - reflexivity.
  - now rewrite IH.
Qed.

Lemma deref_app_l {T : Type} (ts more : list T) (p : TablePtr) :
  (N.to_nat p < length ts)%nat ->
  Kde.deref p (ts ++ more) = Kde.deref p ts.
Proof. intros H. unfold Kde.deref. now apply nth_error_app1. Qed.

Lemma deref_last {T : Type} (ts : list T) (x : T) :
  Kde.deref (N.of_nat (length ts)) (ts ++ [x]) = Some x.
Proof.
  unfold Kde.deref. rewrite Nat2N.id, nth_error_app2 by lia.
  now rewrite Nat.sub_diag.
Qed.

Section ParseArguments.

Context {T : Type} `{Kde.TableType T}.

Variable store : list string -> Kde.store_result.
Variable args : list string.
Variable arguments_out : KdeArguments.t.
Variable mem : Kde.memory T.

(** The address and the content of the reference table, and of the query
    table when there is one. *)
Let ref_ptr : TablePtr := N.of_nat (length (Kde.tables mem)).

Let built (file : string) (leaf : Z) : T :=
  Kde.Table_IndexData leaf (Kde.Table_Init file Kde.Table_new).

Lemma ParseArguments_leave_one_out_result
      (vm : Kde.variables_map) (refs : string) (b : float) :
  Kde.ConstructBoostVariableMap_ store args = Kde.Return (false, vm) ->
  Kde.references_in vm = Some refs ->
  Kde.bandwidth vm = Some b ->
  Kde.queries_in vm = None ->
  Kde.ParseArguments store args arguments_out mem =
  Kde.Return
    (false,
     KdeArguments.mk
       (Kde.metrics mem) (Kde.densities_out vm) (Kde.leaf_size vm)
       ref_ptr ref_ptr
       (Kde.Table_n_entries (built refs (Kde.leaf_size vm)) - 1)
       b (Kde.relative_error vm) (Kde.probability vm) (Kde.kernel vm)
       (KdeArguments.normalize_densities_ arguments_out)
       (Kde.num_iterations_in vm),
     Kde.mk_memory (Kde.tables mem ++ [built refs (Kde.leaf_size vm)])
                   (Kde.metrics mem + 1)%N).
Proof.
  intros Hc Hr Hb Hq. unfold Kde.ParseArguments.
  rewrite Hc, Hr, Hb, Hq. simpl.
  rewrite Nat2N.id, modify_last. simpl. rewrite modify_last. simpl.
  rewrite deref_last. reflexivity.
Qed.

Lemma ParseArguments_two_tables_result
      (vm : Kde.variables_map) (refs qs : string) (b : float) :
  Kde.ConstructBoostVariableMap_ store args = Kde.Return (false, vm) ->
  Kde.references_in vm = Some refs ->
  Kde.bandwidth vm = Some b ->
  Kde.queries_in vm = Some qs ->
  Kde.ParseArguments store args arguments_out mem =
  Kde.Return
    (false,
     KdeArguments.mk
       (Kde.metrics mem) (Kde.densities_out vm) (Kde.leaf_size vm)
       ref_ptr (ref_ptr + 1)%N
       (Kde.Table_n_entries (built refs (Kde.leaf_size vm)))
       b (Kde.relative_error vm) (Kde.probability vm) (Kde.kernel vm)
       (KdeArguments.normalize_densities_ arguments_out)
       (Kde.num_iterations_in vm),
     Kde.mk_memory
       ((Kde.tables mem ++ [built refs (Kde.leaf_size vm)])
        ++ [built qs (Kde.leaf_size vm)])
       (Kde.metrics mem + 1)%N).
Proof.
  intros Hc Hr Hb Hq. unfold Kde.ParseArguments.
  rewrite Hc, Hr, Hb, Hq. simpl.
  rewrite Nat2N.id, modify_last. simpl. rewrite modify_last. simpl.
  rewrite Nat2N.id, modify_last. simpl. rewrite modify_last. simpl.
  rewrite deref_app_l, deref_last.
  - rewrite length_app. simpl. unfold ref_ptr, built.
    replace (N.of_nat (length (Kde.tables mem) + 1))
      with (N.of_nat (length (Kde.tables mem)) + 1)%N by lia.
    reflexivity.
  - rewrite Nat2N.id, length_app. simpl. lia.
Qed.

End ParseArguments.

Lemma Construct_no_fault (store : list string -> Kde.store_result)
      (args : list string) :
  Kde.ConstructBoostVariableMap_ store args <> Kde.Fault.
Proof.
  unfold Kde.ConstructBoostVariableMap_.
  destruct (store args) as [vm|e]; [|destruct e; discriminate].
  split_ifs; discriminate.
Qed.

Lemma ParseArguments_false_inv {T : Type} `{Kde.TableType T}
      (store : list string -> Kde.store_result) (args : list string)
      (a a' : KdeArguments.t) (mem mem' : Kde.memory T) :
  Kde.ParseArguments store args a mem = Kde.Return (false, a', mem') ->
  exists vm refs b,
    store args = Kde.Stored vm /\ accepted vm /\
    Kde.references_in vm = Some refs /\ Kde.bandwidth vm = Some b /\
    let ref_ptr := N.of_nat (length (Kde.tables mem)) in
    let common q eff :=
      KdeArguments.mk
        (Kde.metrics mem) (Kde.densities_out vm) (Kde.leaf_size vm)
        ref_ptr q eff
        b (Kde.relative_error vm) (Kde.probability vm) (Kde.kernel vm)
        (KdeArguments.normalize_densities_ a) (Kde.num_iterations_in vm) in
    match Kde.queries_in vm with
    | None =>
        a' = common ref_ptr
               (Kde.Table_n_entries (built_table refs (Kde.leaf_size vm)) - 1)
        /\ mem' = Kde.mk_memory
                    (Kde.tables mem ++ [built_table refs (Kde.leaf_size vm)])
                    (Kde.metrics mem + 1)%N
    | Some qs =>
        a' = common (ref_ptr + 1)%N
               (Kde.Table_n_entries (built_table refs (Kde.leaf_size vm)))
        /\ mem' = Kde.mk_memory
                    ((Kde.tables mem
                      ++ [built_table refs (Kde.leaf_size vm)])
                     ++ [built_table qs (Kde.leaf_size vm)])
                    (Kde.metrics mem + 1)%N
    end.
Proof.
  intros Hp.
  destruct (Kde.ConstructBoostVariableMap_ store args) as [[[|] vm]|m|e|] eqn:Hc;
    try (unfold Kde.ParseArguments in Hp; rewrite Hc in Hp; discriminate).
  pose proof (Construct_accepted _ _ _ Hc) as [Hs Ha].
  pose proof Ha as (_ & [refs Hr] & _ & [b [Hb _]] & _).
  exists vm, refs, b. repeat (split; [assumption|]). cbv zeta.
  destruct (Kde.queries_in vm) as [qs|] eqn:Hq.
  - rewrite (ParseArguments_two_tables_result store args a mem vm refs qs b)
      in Hp by assumption.
    injection Hp as <- <-. split; reflexivity.
  - rewrite (ParseArguments_leave_one_out_result store args a mem vm refs b)
      in Hp by assumption.
    injection Hp as <- <-. split; reflexivity.
Qed.

Lemma ParseArguments_true_inv {T : Type} `{Kde.TableType T}
      (store : list string -> Kde.store_result) (args : list string)
      (a a' : KdeArguments.t) (mem mem' : Kde.memory T) :
  Kde.ParseArguments store args a mem = Kde.Return (true, a', mem') ->
  (exists vm, store args = Kde.Stored vm /\ Kde.help vm = true) /\
  a' = KdeArguments.set_metric_ (Kde.metrics mem) a /\
  mem' = Kde.mk_memory (Kde.tables mem) (Kde.metrics mem + 1)%N.
Proof.
  intros Hp.
  destruct (Kde.ConstructBoostVariableMap_ store args) as [[[|] vm]|m|e|] eqn:Hc;
    try (unfold Kde.ParseArguments in Hp; rewrite Hc in Hp; discriminate).
  - unfold Kde.ParseArguments in Hp. rewrite Hc in Hp.
    injection Hp as <- <-.
    apply Construct_true_inv in Hc. split; [now exists vm|].
    split; reflexivity.
  - exfalso.
    pose proof (Construct_accepted _ _ _ Hc) as [Hs Ha].
    destruct Ha as (_ & [refs Hr] & _ & [b [Hb _]] & _).
    destruct (Kde.queries_in vm) as [qs|] eqn:Hq.
    + rewrite (ParseArguments_two_tables_result
                 store args a mem vm refs qs b) in Hp by assumption.
      discriminate.
    + rewrite (ParseArguments_leave_one_out_result
                 store args a mem vm refs b) in Hp by assumption.
      discriminate.
Qed.

(** X15: [ParseArguments] never reads an absent option and never uses an
    invalid table address: the validation done first guarantees that
    [references_in] and [bandwidth] are present when they are read, and
    each table is used only after its allocation. *)
Theorem ParseArguments_never_faults {T : Type} `{Kde.TableType T}
        (store : list string -> Kde.store_result) (args : list string)
        (a : KdeArguments.t) (mem : Kde.memory T) :
  Kde.ParseArguments store args a mem <> Kde.Fault.
Proof.
  destruct (Kde.ConstructBoostVariableMap_ store args) as [[[|] vm]|m|e|] eqn:Hc;
    try (unfold Kde.ParseArguments; rewrite Hc; discriminate).
  - pose proof (Construct_accepted _ _ _ Hc) as [Hs Ha].
    destruct Ha as (_ & [refs Hr] & _ & [b [Hb _]] & _).
    destruct (Kde.queries_in vm) as [qs|] eqn:Hq.
    + rewrite (ParseArguments_two_tables_result store args a mem vm refs qs b)
        by assumption. discriminate.
    + rewrite (ParseArguments_leave_one_out_result store args a mem vm refs b)
        by assumption. discriminate.
  - now apply Construct_no_fault in Hc.
Qed.

(** X16: leave-one-out mode.  When the validated command line has no
    [queries_in], [ParseArguments] returns [false], allocates one table,
    makes the query table the reference table itself, and sets the
    effective number of reference points to the number of entries of the
    reference table minus one. *)
Theorem ParseArguments_without_queries {T : Type} `{Kde.TableType T}
        (store : list string -> Kde.store_result) (args : list string)
        (a : KdeArguments.t) (mem : Kde.memory T) (vm : Kde.variables_map) :
  Kde.ConstructBoostVariableMap_ store args = Kde.Return (false, vm) ->
  Kde.queries_in vm = None ->
  exists a' mem' r,
    Kde.ParseArguments store args a mem = Kde.Return (false, a', mem') /\
    KdeArguments.query_table_ a' = KdeArguments.reference_table_ a' /\
    length (Kde.tables mem') = S (length (Kde.tables mem)) /\
    Kde.deref (KdeArguments.reference_table_ a') (Kde.tables mem') = Some r /\
    KdeArguments.effective_num_reference_points_ a'
    = Kde.Table_n_entries r - 1.
Proof.
  intros Hc Hq.
  pose proof (Construct_accepted _ _ _ Hc) as [Hs Ha].
  destruct Ha as (_ & [refs Hr] & _ & [b [Hb _]] & _).
  rewrite (ParseArguments_leave_one_out_result store args a mem vm refs b)
    by assumption.
  eexists _, _, _. split; [reflexivity|]. simpl.
  split; [reflexivity|]. split; [rewrite length_app; simpl; lia|].
  split; [apply deref_last|reflexivity].
Qed.

Lemma ParseArguments_without_queries_witness :
  exists a' mem' r,
    Kde.ParseArguments (fun _ => Kde.Stored leave_one_out_vm) []
                       blank_arguments (Kde.mk_memory [[1; 2]] 0)
    = Kde.Return (false, a', mem') /\
    KdeArguments.query_table_ a' = KdeArguments.reference_table_ a' /\
    length (Kde.tables mem') = 2%nat /\
    Kde.deref (KdeArguments.reference_table_ a') (Kde.tables mem') = Some r /\
    KdeArguments.effective_num_reference_points_ a'
    = Kde.Table_n_entries r - 1.
Proof.
  apply (ParseArguments_without_queries
           (fun _ => Kde.Stored leave_one_out_vm) []
           blank_arguments (Kde.mk_memory [[1; 2]] 0) leave_one_out_vm).
  - reflexivity.
  - reflexivity.
Defined.

(** X17: two-table mode.  When the validated command line has
    [queries_in], [ParseArguments] returns [false], allocates two tables,
    the query table is a table other than the reference table, built from
    the query file, and the effective number of reference points is the
    number of entries of the reference table. *)
Theorem ParseArguments_with_queries {T : Type} `{Kde.TableType T}
        (store : list string -> Kde.store_result) (args : list string)
        (a : KdeArguments.t) (mem : Kde.memory T) (vm : Kde.variables_map)
        (qs : string) :
  Kde.ConstructBoostVariableMap_ store args = Kde.Return (false, vm) ->
  Kde.queries_in vm = Some qs ->
  exists a' mem' r,
    Kde.ParseArguments store args a mem = Kde.Return (false, a', mem') /\
    KdeArguments.query_table_ a' <> KdeArguments.reference_table_ a' /\
    length (Kde.tables mem') = S (S (length (Kde.tables mem))) /\
    Kde.deref (KdeArguments.reference_table_ a') (Kde.tables mem') = Some r /\
    Kde.deref (KdeArguments.query_table_ a') (Kde.tables mem')
    = Some (built_table qs (KdeArguments.leaf_size_ a')) /\
    KdeArguments.effective_num_reference_points_ a' = Kde.Table_n_entries r.
Proof.
  intros Hc Hq.
  pose proof (Construct_accepted _ _ _ Hc) as [Hs Ha].
  destruct Ha as (_ & [refs Hr] & _ & [b [Hb _]] & _).
  rewrite (ParseArguments_two_tables_result store args a mem vm refs qs b)
    by assumption.
  eexists _, _, _. split; [reflexivity|]. simpl.
  split; [lia|]. split; [rewrite !length_app; simpl; lia|].
  split.
  - rewrite deref_app_l, deref_last; [reflexivity|].
    rewrite Nat2N.id, length_app. simpl. lia.
  - split; [|reflexivity].
    replace (N.of_nat (length (Kde.tables mem)) + 1)%N
      with (N.of_nat (length (Kde.tables mem
                              ++ [built_table refs (Kde.leaf_size vm)]))).
    + apply (deref_last
               (Kde.tables mem ++ [built_table refs (Kde.leaf_size vm)])).
    + rewrite length_app. simpl. lia.
Qed.

Lemma ParseArguments_with_queries_witness :
  exists a' mem' r,
    Kde.ParseArguments (fun _ => Kde.Stored two_table_vm) []
                       blank_arguments (Kde.mk_memory [[1; 2]] 0)
    = Kde.Return (false, a', mem') /\
    KdeArguments.query_table_ a' <> KdeArguments.reference_table_ a' /\
    length (Kde.tables mem') = 3%nat /\
    Kde.deref (KdeArguments.reference_table_ a') (Kde.tables mem') = Some r /\
    Kde.deref (KdeArguments.query_table_ a') (Kde.tables mem')
    = Some (built_table "q.csv" (KdeArguments.leaf_size_ a')) /\
    KdeArguments.effective_num_reference_points_ a' = Kde.Table_n_entries r.
Proof.
  apply (ParseArguments_with_queries
           (fun _ => Kde.Stored two_table_vm) []
           blank_arguments (Kde.mk_memory [[1; 2]] 0) two_table_vm "q.csv").
  - reflexivity.
  - reflexivity.
Defined.

(** X18: [ParseArguments] followed by [Kde::Init].  After a parse that
    returned [false], the initialised [Kde] object is monochromatic exactly
    when the command line had no [queries_in]. *)
Theorem ParseArguments_then_Init_monochromatic {T : Type} `{Kde.TableType T}
        (store : list string -> Kde.store_result) (args : list string)
        (a a' : KdeArguments.t) (mem mem' : Kde.memory T)
        (vm : Kde.variables_map) (self : Kde.t) :
  store args = Kde.Stored vm ->
  Kde.ParseArguments store args a mem = Kde.Return (false, a', mem') ->
  (Kde.is_monochromatic (Kde.Init a' self) = true <->
   Kde.queries_in vm = None).
Proof.
  intros Hs Hp.
  destruct (ParseArguments_false_inv _ _ _ _ _ _ Hp)
    as (vm' & refs & b & Hs' & _ & _ & _ & Hres).
  rewrite Hs in Hs'. injection Hs' as <-. cbv zeta in Hres.
  destruct (Init_monochromatic_iff a' self) as [Hmono _].
  rewrite Hmono.
  destruct (Kde.queries_in vm) as [qs|]; destruct Hres as [-> _]; simpl.
  - split; [lia|discriminate].
  - split; reflexivity.
Qed.

Lemma ParseArguments_then_Init_monochromatic_witness :
  Kde.is_monochromatic
    (Kde.Init
       (KdeArguments.mk 0%N "densities_out.csv" 20 1%N 1%N 7 0.5%float
                        0.015625%float 1%float "epan" false 0)
       blank_Kde) = true <->
  Kde.queries_in leave_one_out_vm = None.
Proof.
  apply (ParseArguments_then_Init_monochromatic
           (fun _ => Kde.Stored leave_one_out_vm) []
           blank_arguments _
           (Kde.mk_memory [[1; 2]] 0)
           (Kde.mk_memory [[1; 2]; [0; 0; 0; 0; 0; 0; 0; 0]] 1)
           leave_one_out_vm blank_Kde).
  - reflexivity.
  - reflexivity.
Defined.

(** X19: what [ParseArguments] leaves alone.  Whenever it returns, the
    tables that existed before are unchanged, exactly one metric object was
    allocated and [metric_] is its address, and [normalize_densities_] has
    the value it had before the call. *)
Theorem ParseArguments_frame {T : Type} `{Kde.TableType T}
        (store : list string -> Kde.store_result) (args : list string)
        (a a' : KdeArguments.t) (mem mem' : Kde.memory T) (ret : bool) :
  Kde.ParseArguments store args a mem = Kde.Return (ret, a', mem') ->
  (forall p, (N.to_nat p < length (Kde.tables mem))%nat ->
             Kde.deref p (Kde.tables mem') = Kde.deref p (Kde.tables mem)) /\
  Kde.metrics mem' = (Kde.metrics mem + 1)%N /\
  KdeArguments.metric_ a' = Kde.metrics mem /\
  KdeArguments.normalize_densities_ a'
  = KdeArguments.normalize_densities_ a.
Proof.
  intros Hp. destruct ret.
  - destruct (ParseArguments_true_inv _ _ _ _ _ _ Hp) as (_ & -> & ->).
    simpl. repeat split; reflexivity.
  - destruct (ParseArguments_false_inv _ _ _ _ _ _ Hp)
      as (vm & refs & b & _ & _ & _ & _ & Hres).
    cbv zeta in Hres.
    destruct (Kde.queries_in vm) as [qs|]; destruct Hres as [-> ->]; simpl.
    + split; [|repeat split; reflexivity].
      intros p Hlt. rewrite <- app_assoc. now apply deref_app_l.
    + split; [|repeat split; reflexivity].
      intros p Hlt. now apply deref_app_l.
Qed.

Lemma ParseArguments_frame_witness :
  (forall p, (N.to_nat p < 1)%nat ->
             Kde.deref p [[1; 2]; [0; 0; 0; 0; 0; 0; 0; 0]]
             = Kde.deref p [[1; 2]]) /\
  1%N = (0 + 1)%N /\
  0%N = 0%N /\
  false = false.
Proof.
  apply (ParseArguments_frame
           (fun _ => Kde.Stored leave_one_out_vm) []
           blank_arguments
           (KdeArguments.mk 0%N "densities_out.csv" 20 1%N 1%N 7 0.5%float
                            0.015625%float 1%float "epan" false 0)
           (Kde.mk_memory [[1; 2]] 0)
           (Kde.mk_memory [[1; 2]; [0; 0; 0; 0; 0; 0; 0; 0]] 1)
           false).
  reflexivity.
Defined.

(** X20: [ParseArguments] returns [true] exactly when the command line
    was stored with [help] present; it has then allocated the metric and
    nothing else: no table is built and no other field of the arguments
    object is written. *)
Theorem ParseArguments_returns_true_iff {T : Type} `{Kde.TableType T}
        (store : list string -> Kde.store_result) (args : list string)
        (a a' : KdeArguments.t) (mem mem' : Kde.memory T) :
  Kde.ParseArguments store args a mem = Kde.Return (true, a', mem') <->
  (exists vm, store args = Kde.Stored vm /\ Kde.help vm = true) /\
  a' = KdeArguments.set_metric_ (Kde.metrics mem) a /\
  mem' = Kde.mk_memory (Kde.tables mem) (Kde.metrics mem + 1)%N.
Proof.
  split.
  - apply ParseArguments_true_inv.
  - intros ([vm [Hs Hh]] & -> & ->).
    unfold Kde.ParseArguments, Kde.ConstructBoostVariableMap_.
    rewrite Hs, Hh. reflexivity.
Qed.

(** X21: what a caller may rely on after [ParseArguments] returned
    [false]: the leaf size is positive, the kernel is gaussian or epan, and
    none of [bandwidth <= 0], [probability <= 0], [probability > 1],
    [relative_error < 0] holds for the values stored in the arguments. *)
Theorem ParseArguments_validated {T : Type} `{Kde.TableType T}
        (store : list string -> Kde.store_result) (args : list string)
        (a a' : KdeArguments.t) (mem mem' : Kde.memory T) :
  Kde.ParseArguments store args a mem = Kde.Return (false, a', mem') ->
  0 < KdeArguments.leaf_size_ a' /\
  (KdeArguments.kernel_ a' = "gaussian"%string \/
   KdeArguments.kernel_ a' = "epan"%string) /\
  PrimFloat.leb (KdeArguments.bandwidth_ a') 0 = false /\
  PrimFloat.leb (KdeArguments.probability_ a') 0 = false /\
  PrimFloat.ltb 1 (KdeArguments.probability_ a') = false /\
  PrimFloat.ltb (KdeArguments.relative_error_ a') 0 = false.
Proof.
  intros Hp.
  destruct (ParseArguments_false_inv _ _ _ _ _ _ Hp)
    as (vm & refs & b & _ & Ha & _ & Hb & Hres).
  destruct Ha as (_ & _ & Hk & [b' [Hb' Hb0]] & Hp0 & Hp1 & Hr & Hl).
  rewrite Hb in Hb'. injection Hb' as <-. cbv zeta in Hres.
  destruct (Kde.queries_in vm) as [qs|]; destruct Hres as [-> _]; simpl;
    repeat split; assumption.
Qed.

Lemma ParseArguments_validated_witness :
  0 < 20 /\
  ("epan"%string = "gaussian"%string \/ "epan"%string = "epan"%string) /\
  PrimFloat.leb 0.5 0 = false /\
  PrimFloat.leb 1 0 = false /\
  PrimFloat.ltb 1 1 = false /\
  PrimFloat.ltb 0.015625 0 = false.
Proof.
  apply (ParseArguments_validated
           (fun _ => Kde.Stored leave_one_out_vm) []
           blank_arguments
           (KdeArguments.mk 0%N "densities_out.csv" 20 1%N 1%N 7 0.5%float
                            0.015625%float 1%float "epan" false 0)
           (Kde.mk_memory [[1; 2]] 0)
           (Kde.mk_memory [[1; 2]; [0; 0; 0; 0; 0; 0; 0; 0]] 1)).
  reflexivity.
Defined.
